(** * Block editor UI slice: moving animation, heading-level dropdown,
      block-directory selectors

    A shallow embedding of
    - [packages/block-editor/src/components/use-moving-animation/index.js],
    - the heading-level dropdown component, and
    - the block-directory selectors exercised by [store/test/selectors.js],
    followed by the properties proved about them.

    Conventions.  JavaScript numbers are modelled exactly: integral DOM
    attributes ([offsetTop], [offsetLeft]) and counters as [Z], fractional
    quantities (spring values, bounding rectangles, scroll offsets) as [Q];
    every finite double is a rational, and the counters stay far below
    2^53.  [undefined] results of style callbacks are [None]. *)

From Stdlib Require Import ZArith QArith Qround Ascii String List DecimalString Bool Lia Lqa.
From Stdlib Require DecimalZ DecimalPos.
From stdpp Require Import base gmap strings.
Import ListNotations.

Open Scope Z_scope.

(** ** JavaScript primitives used by the sources *)
Module JS.

(** Template-literal rendering of an integral number, [`${ n }`]: its
    decimal digits, with a leading minus sign when negative (pixel offsets
    are far below the 10^21 where JavaScript switches to exponents). *)
Definition num_str (n : Z) : string := NilZero.string_of_int (Z.to_int n).

(** [`${ n }px`]. *)
Definition px (n : Z) : string := (num_str n ++ "px")%string.

(** [Math.round]: the nearest integer, ties towards +infinity. *)
Definition Math_round (v : Q) : Z := Qfloor (v + (1 # 2)).

(** [v === 0] on numbers. *)
Definition is_zero (v : Q) : bool := Qeq_bool v 0.

(** Truthiness of a number. *)
Definition truthy (n : Z) : bool := negb (n =? 0).

End JS.

(** ** The part of the DOM the animation hook touches *)
Module Dom.

Record Position := { top : Z; left : Z }.

(** Identity of a scrollable node. *)
Definition NodeId := nat.

(** Values the hook assigns to [element.style.left] / [.top]. *)
Inductive StyleInput :=
| SEmpty                 (* '' *)
| SNull                  (* null *)
| SUndefined             (* undefined *)
| SText (s : string).    (* a length such as '80px' *)

(** The CSSOM setter: the empty string and [null] remove the declaration,
    [undefined] stringifies to an invalid value and is ignored, a valid
    length replaces the declaration. *)
Definition assign_style (old : option string) (v : StyleInput) : option string :=
  match v with
  | SEmpty | SNull => None
  | SUndefined => old
  | SText s => Some s
  end.

(** The animated element ([ref.current]) with its surroundings.  The
    browser's layout is an oracle: [offsets] answers [offsetTop] and
    [offsetLeft] for given inline overrides, [rect_top] answers
    [getBoundingClientRect().top] for given overrides and scroll offsets. *)
Record Element := {
  style_left : option string;
  style_top : option string;
  offsets : option string -> option string -> Position;
  rect_top : option string -> option string -> (NodeId -> Q) -> Q;
  scrollTop : NodeId -> Q;
  scroll_parent : option NodeId
}.

Definition offsetTop (e : Element) : Z := top (offsets e (style_left e) (style_top e)).
Definition offsetLeft (e : Element) : Z := left (offsets e (style_left e) (style_top e)).

Definition getBoundingClientRect_top (e : Element) : Q :=
  rect_top e (style_left e) (style_top e) (scrollTop e).

(** [getScrollContainer( node )] of [@wordpress/dom]: the closest
    scrollable ancestor, if any. *)
Definition getScrollContainer (e : Element) : option NodeId := scroll_parent e.

Definition set_style_left (v : StyleInput) (e : Element) : Element :=
  {| style_left := assign_style (style_left e) v;
     style_top := style_top e;
     offsets := offsets e; rect_top := rect_top e;
     scrollTop := scrollTop e; scroll_parent := scroll_parent e |}.

Definition set_style_top (v : StyleInput) (e : Element) : Element :=
  {| style_left := style_left e;
     style_top := assign_style (style_top e) v;
     offsets := offsets e; rect_top := rect_top e;
     scrollTop := scrollTop e; scroll_parent := scroll_parent e |}.

(** [node.scrollTop = v] for the scrollable node [n]. *)
Definition set_scrollTop (n : NodeId) (v : Q) (e : Element) : Element :=
  {| style_left := style_left e;
     style_top := style_top e;
     offsets := offsets e; rect_top := rect_top e;
     scrollTop := fun m => if Nat.eqb m n then v else scrollTop e m;
     scroll_parent := scroll_parent e |}.

End Dom.

(** ** [use-moving-animation/index.js] *)
Module MovingAnimation.
Import Dom.

(** [const counterReducer = ( state ) => state + 1;] *)
Definition counterReducer (state : Z) : Z := state + 1.

Definition getAbsolutePosition (element : Element) : Position :=
  {| top := offsetTop element; left := offsetLeft element |}.

Record Transform := { x : Z; y : Z; clientTop : Q }.

(** The hook's own state: the two reducers, the [transform] state and the
    [scrollContainer] ref. *)
Record HookState := {
  triggeredAnimation : Z;
  finishedAnimation : Z;
  transform : Transform;
  scrollContainer : option NodeId
}.

Definition initial : HookState :=
  {| triggeredAnimation := 0;
     finishedAnimation := 0;
     transform := {| x := 0; y := 0; clientTop := 0 |};
     scrollContainer := None |}.

(** Dispatchers and setters. *)
Definition triggerAnimation (s : HookState) : HookState :=
  {| triggeredAnimation := counterReducer (triggeredAnimation s);
     finishedAnimation := finishedAnimation s;
     transform := transform s;
     scrollContainer := scrollContainer s |}.

Definition endAnimation (s : HookState) : HookState :=
  {| triggeredAnimation := triggeredAnimation s;
     finishedAnimation := counterReducer (finishedAnimation s);
     transform := transform s;
     scrollContainer := scrollContainer s |}.

Definition setTransform (t : Transform) (s : HookState) : HookState :=
  {| triggeredAnimation := triggeredAnimation s;
     finishedAnimation := finishedAnimation s;
     transform := t;
     scrollContainer := scrollContainer s |}.

Definition set_scrollContainer (c : option NodeId) (s : HookState) : HookState :=
  {| triggeredAnimation := triggeredAnimation s;
     finishedAnimation := finishedAnimation s;
     transform := transform s;
     scrollContainer := c |}.

(** The hook's arguments other than [ref] and the opaque trigger value. *)
Record Props := {
  isSelected : bool;
  adjustScrolling : bool;
  enableAnimation : bool
}.

(** *** The returned style *)

(** The animated values of the spring. *)
Inductive Animated := animationProps_x | animationProps_y.

(** [interpolate( parents, fn )]: a value recomputed from the animated
    parents on every frame; [None] is [undefined]. *)
Inductive Interpolation :=
| interpolate1 (parent : Animated) (fn : Q -> option string)
| interpolate2 (parent1 parent2 : Animated) (fn : Q -> Q -> option string).

(** A style object: its own keys, in insertion order. *)
Definition StyleObject := list (string * Interpolation).

Definition left_fn (v : Q) : option string :=
  let r := JS.Math_round v in
  if r =? 0 then None else Some (JS.px r).

Definition top_fn (v : Q) : option string :=
  let r := JS.Math_round v in
  if r =? 0 then None else Some (JS.px r).

Definition zIndex_fn (isSelected : bool) (vx vy : Q) : option string :=
  if negb isSelected || (JS.is_zero vx && JS.is_zero vy) then None else Some "1"%string.

(** [useSpring] configuration. *)
Record SpringProps := {
  from_x : Z; from_y : Z;
  to_x : Z; to_y : Z;
  reset : bool;
  mass : Z; tension : Z; friction : Z;
  immediate : bool
}.

(** Everything one call of the hook computes and closes over. *)
Record Rendered := {
  prefersReducedMotion : bool;
  previous : option Position;
  seen_triggered : Z;
  seen_transform : Transform;
  seen_adjustScrolling : bool;
  spring : SpringProps;
  style : StyleObject
}.

(** [useMovingAnimation( ref, isSelected, adjustScrolling, enableAnimation,
    triggerAnimationOnChange )], given the result of [useReducedMotion()]
    and the current [ref.current] ([None] before the first mount). *)
Definition useMovingAnimation (useReducedMotion : bool) (ref_current : option Element)
    (p : Props) (s : HookState) : Rendered :=
  let prefersReducedMotion := useReducedMotion || negb (enableAnimation p) in
  let previous :=
    match ref_current with
    | Some e => Some (getAbsolutePosition e)
    | None => None
    end in
  {| prefersReducedMotion := prefersReducedMotion;
     previous := previous;
     seen_triggered := triggeredAnimation s;
     seen_transform := transform s;
     seen_adjustScrolling := adjustScrolling p;
     spring :=
       {| from_x := x (transform s); from_y := y (transform s);
          to_x := 0; to_y := 0;
          reset := negb (triggeredAnimation s =? finishedAnimation s);
          mass := 5; tension := 2000; friction := 200;
          immediate := prefersReducedMotion |};
     style :=
       if prefersReducedMotion then []
       else [ ("left"%string, interpolate1 animationProps_x left_fn);
              ("top"%string, interpolate1 animationProps_y top_fn);
              ("zIndex"%string,
               interpolate2 animationProps_x animationProps_y
                 (zIndex_fn (isSelected p))) ] |}.

(** *** Layout effects *)

(** First [useLayoutEffect], dependencies [[ triggeredAnimation ]]:
    [if ( triggeredAnimation ) { endAnimation(); }]. *)
Definition acknowledge_effect (r : Rendered) (s : HookState) : HookState :=
  if JS.truthy (seen_triggered r) then endAnimation s else s.

(** Second [useLayoutEffect], dependencies [[ triggerAnimationOnChange ]].
    It runs after React has attached the ref, so [ref.current] is the
    mounted element [e]; [previous] is the position captured by the
    render that scheduled the effect. *)
Definition move_effect (r : Rendered) (e : Element) (s : HookState)
    : Element * HookState :=
  match previous r with
  | None => (e, s)
  | Some previous =>
    let s := set_scrollContainer (getScrollContainer e) s in
    if prefersReducedMotion r then
      if seen_adjustScrolling r then
        match scrollContainer s with
        | Some container =>
          let e := set_style_left SNull e in
          let e := set_style_top SNull e in
          let destination := getAbsolutePosition e in
          (set_scrollTop container
             (scrollTop e container - inject_Z (top previous)
              + inject_Z (top destination))%Q e, s)
        | None => (e, s)
        end
      else (e, s)
    else
      let e := set_style_left SEmpty e in
      let e := set_style_top SEmpty e in
      let destination := getAbsolutePosition e in
      let x := left previous - left destination in
      let y := top previous - top destination in
      let e := set_style_left (if x =? 0 then SUndefined else SText (JS.px x)) e in
      let e := set_style_top (if y =? 0 then SUndefined else SText (JS.px y)) e in
      let blockRect_top := getBoundingClientRect_top e in
      let newTransform := {| x := x; y := y; clientTop := blockRect_top |} in
      (e, setTransform newTransform (triggerAnimation s))
  end.

(** The position the layout reports once both inline overrides are
    cleared: what the second effect reads as [destination]. *)
Definition destination_of (e : Element) : Position := offsets e None None.

(** The spring's [onFrame] callback.  [adjustScrolling], [transform] and
    [prefersReducedMotion] are the values closed over by the render,
    [scrollContainer.current] is read when the frame runs. *)
Definition onFrame (r : Rendered) (e : Element) (s : HookState) : Element :=
  if seen_adjustScrolling r then
    match scrollContainer s with
    | Some container =>
      if negb (prefersReducedMotion r) then
        let blockRect_top := getBoundingClientRect_top e in
        let diff := (blockRect_top - clientTop (seen_transform r))%Q in
        set_scrollTop container (scrollTop e container + diff)%Q e
      else e
    | None => e
    end
  else e.

(** *** What a frame shows *)

(** The current values of the two animated numbers. *)
Record Frame := { value_x : Q; value_y : Q }.

Definition animated_value (f : Frame) (a : Animated) : Q :=
  match a with
  | animationProps_x => value_x f
  | animationProps_y => value_y f
  end.

Definition sample (f : Frame) (i : Interpolation) : option string :=
  match i with
  | interpolate1 a fn => fn (animated_value f a)
  | interpolate2 a b fn => fn (animated_value f a) (animated_value f b)
  end.

(** The declarations a frame applies to the element: a key whose
    interpolation yields [undefined] applies nothing. *)
Definition applied_style (f : Frame) (o : StyleObject) : list (string * string) :=
  omap (fun kv => match sample f (snd kv) with
                  | Some v => Some (fst kv, v)
                  | None => None
                  end) o.

Fixpoint style_get (key : string) (l : list (string * string)) : option string :=
  match l with
  | [] => None
  | (k, v) :: l' => if String.eqb k key then Some v else style_get key l'
  end.

(** *** Life cycle of one mounted instance *)

Record Instance := {
  element : Element;
  hook : HookState;
  (** [None] until the first commit; afterwards the [triggeredAnimation]
      value the first effect's dependency array held at the last commit. *)
  ack_deps : option Z;
  (** The closure of the latest render. *)
  latest : option Rendered
}.

Definition mount (e : Element) : Instance :=
  {| element := e; hook := initial; ack_deps := None; latest := None |}.

(** [ref.current] as a render sees it. *)
Definition ref_current (i : Instance) : option Element :=
  match ack_deps i with
  | Some _ => Some (element i)
  | None => None
  end.

Inductive Event :=
(** A render followed by its commit: React mutates the DOM ([relayout])
    and then runs the layout effects whose dependencies changed. *)
| Render (useReducedMotion : bool) (p : Props) (trigger_changed : bool)
         (relayout : Element -> Element)
(** One frame of the spring. *)
| AnimationFrame.

Definition deps_changed (old : option Z) (new : Z) : bool :=
  match old with
  | Some d => negb (d =? new)
  | None => true
  end.

Definition step (ev : Event) (i : Instance) : Instance :=
  match ev with
  | Render useReducedMotion p trigger_changed relayout =>
    let r := useMovingAnimation useReducedMotion (ref_current i) p (hook i) in
    let e := relayout (element i) in
    let s1 :=
      if deps_changed (ack_deps i) (triggeredAnimation (hook i))
      then acknowledge_effect r (hook i) else hook i in
    let es :=
      if trigger_changed || negb (bool_decide (is_Some (ack_deps i)))
      then move_effect r e s1 else (e, s1) in
    {| element := fst es; hook := snd es;
       ack_deps := Some (triggeredAnimation (hook i));
       latest := Some r |}
  | AnimationFrame =>
    match latest i with
    | Some r =>
      {| element := onFrame r (element i) (hook i); hook := hook i;
         ack_deps := ack_deps i; latest := latest i |}
    | None => i
    end
  end.

Definition run (evs : list Event) (i : Instance) : Instance :=
  fold_left (fun acc ev => step ev acc) evs i.

(** What the instance keeps true from its mount on: before the first
    commit both counters are 0; afterwards [finishedAnimation] equals the
    trigger count seen by the last commit and [triggeredAnimation] is that
    count or one more. *)
Definition generations_ok (i : Instance) : Prop :=
  match ack_deps i with
  | None => triggeredAnimation (hook i) = 0 /\ finishedAnimation (hook i) = 0
  | Some d =>
    0 <= d /\ finishedAnimation (hook i) = d
    /\ (triggeredAnimation (hook i) = d \/ triggeredAnimation (hook i) = d + 1)
  end.

End MovingAnimation.

(** ** The heading-level dropdown component *)
Module HeadingLevel.

(** What an event handler does, in order. *)
Inductive Effect :=
| preventDefault
| stopPropagation
| onToggle
| onChange (newValue : Z)
| focus_currentTarget.

Record KeyboardEvent := { keyCode : Z }.

(** The rendered elements the component builds itself. *)
Inductive Node :=
| HeadingLevelIcon (level : Z) (isPressed : option bool)
| span (className : string)
| HeadingLevelChecker (levelIsInvalid : bool) (selectedLevel : Z).

Record ToolbarButton := {
  aria_expanded : bool;
  aria_haspopup : string;
  className : string;
  icon : list Node;
  label : string;
  onClick : list Effect;
  onKeyDown : KeyboardEvent -> list Effect;
  showTooltip : bool
}.

Record Control := {
  control_icon : Node;
  title : string;
  isActive : bool;
  control_onClick : list Effect;
  onMouseDown : list Effect
}.

Record Content := {
  toolbar_className : string;
  controls : list Control;
  checker : Node
}.

Record Dropdown := {
  renderToggle : bool -> ToolbarButton;
  renderContent : Content
}.

Definition HEADING_LEVELS : list Z := [1; 2; 3; 4; 5; 6].

Definition invalid_indicator : Node :=
  span "block-library-heading__heading-level-dropdown-button-invalid-indicator".

Section Component.

(** The type of block client ids. *)
Variable ClientId : Type.

(** Modelled from the spec: [./use-is-heading-level-valid] is not among
    the sources; it is "a collaborator hook returning a validity boolean
    keyed by block identifier and level", [true] when the level is valid
    for the block's context. *)
Variable useIsHeadingLevelValid : ClientId -> Z -> bool.

(** The [DOWN] key code of [@wordpress/keycodes]. *)
Variable DOWN : Z.

Definition openOnArrowDown (isOpen : bool) (event : KeyboardEvent) : list Effect :=
  if negb isOpen && (keyCode event =? DOWN)
  then [preventDefault; stopPropagation; onToggle]
  else [].

Definition HeadingLevelDropdown (clientId : ClientId) (selectedLevel : Z) : Dropdown :=
  let levelIsInvalid := useIsHeadingLevelValid clientId selectedLevel in
  {| renderToggle := fun isOpen =>
       {| aria_expanded := isOpen;
          aria_haspopup := "true";
          className := "block-library-heading__heading-level-dropdown-button";
          icon := HeadingLevelIcon selectedLevel None
                  :: (if levelIsInvalid then [invalid_indicator] else []);
          label := "Change heading level";
          onClick := [onToggle];
          onKeyDown := openOnArrowDown isOpen;
          showTooltip := true |};
     renderContent :=
       {| toolbar_className := "block-library-heading-level-toolbar";
          controls :=
            map (fun targetLevel =>
                   let isActive := targetLevel =? selectedLevel in
                   {| control_icon := HeadingLevelIcon targetLevel (Some isActive);
                      title := ("Heading " ++ JS.num_str targetLevel)%string;
                      isActive := isActive;
                      control_onClick := [onChange targetLevel];
                      onMouseDown := [preventDefault; focus_currentTarget] |})
                HEADING_LEVELS;
          checker := HeadingLevelChecker levelIsInvalid selectedLevel |} |}.

End Component.

Definition node_eqb (a b : Node) : bool :=
  match a, b with
  | span c, span d => String.eqb c d
  | _, _ => false
  end.

(** Whether the toggle's icon contains the invalidity indicator. *)
Definition shows_invalid_indicator (b : ToolbarButton) : bool :=
  existsb (node_eqb invalid_indicator) (icon b).

End HeadingLevel.

(** ** Block-directory selectors *)
Module Selectors.

(** The result of a lookup that may answer the boolean [false]. *)
Inductive NoticeOrFalse :=
| Notice (text : string)
| False_.

Section Store.

(** The entries of the downloadable-block result lists; their fixture
    ([./fixtures]) is not among the sources. *)
Variable DownloadableBlock : Type.

Record BlockManagement := { installedBlockTypes : list string }.

Record DownloadableBlocks := {
  pendingBlockRequests : Z;
  results : gmap string (list DownloadableBlock)
}.

Record State := {
  blockManagement : BlockManagement;
  downloadableBlocks : DownloadableBlocks;
  errorNotices : gmap string string
}.

(** Modelled from the spec: [../selectors] is not among the sources;
    "return installed block type list". *)
Definition getInstalledBlockTypes (state : State) : list string :=
  installedBlockTypes (blockManagement state).

(** Modelled from the spec: "a boolean for outstanding request
    count > 0". *)
Definition isRequestingDownloadableBlocks (state : State) : bool :=
  0 <? pendingBlockRequests (downloadableBlocks state).

(** Modelled from the spec: "full error-notice mapping". *)
Definition getErrorNotices (state : State) : gmap string string :=
  errorNotices state.

(** Modelled from the spec: [../selectors] is not among the sources;
    "a single error notice or a false sentinel when absent". *)
Definition getErrorNoticeForBlock (state : State) (blockId : string) : NoticeOrFalse :=
  match errorNotices state !! blockId with
  | Some text => Notice text
  | None => False_
  end.

(** Modelled from the spec: [../selectors] is not among the sources;
    "query-keyed result arrays (empty array, never absent, when the
    query key is unmatched)". *)
Definition getDownloadableBlocks (state : State) (filterValue : string)
    : list DownloadableBlock :=
  match results (downloadableBlocks state) !! filterValue with
  | Some blocks => blocks
  | None => []
  end.

(** The states of [store/test/selectors.js]; keys a test leaves out are
    empty here. *)
Definition state_with_error_notice : State :=
  {| blockManagement := {| installedBlockTypes := [] |};
     downloadableBlocks := {| pendingBlockRequests := 0; results := ∅ |};
     errorNotices := {[ "block/has-error"%string := "Error notice"%string ]} |}.

Definition state_with_results (downloadableBlock : DownloadableBlock) : State :=
  {| blockManagement := {| installedBlockTypes := [] |};
     downloadableBlocks :=
       {| pendingBlockRequests := 0;
          results := {[ "boxer"%string := [downloadableBlock] ]} |};
     errorNotices := ∅ |}.

End Store.

Arguments installedBlockTypes : clear implicits.
Arguments pendingBlockRequests {DownloadableBlock} _.
Arguments results {DownloadableBlock} _.
Arguments blockManagement {DownloadableBlock} _.
Arguments downloadableBlocks {DownloadableBlock} _.
Arguments errorNotices {DownloadableBlock} _.
Arguments getInstalledBlockTypes {DownloadableBlock} state.
Arguments isRequestingDownloadableBlocks {DownloadableBlock} state.
Arguments getErrorNotices {DownloadableBlock} state.
Arguments getErrorNoticeForBlock {DownloadableBlock} state blockId.
Arguments getDownloadableBlocks {DownloadableBlock} state filterValue.
Arguments state_with_results {DownloadableBlock} downloadableBlock.

End Selectors.

(** ** Concrete inputs used to exercise the properties *)
Module Examples.
Import Dom MovingAnimation.

(** A block laid out at [pos] whatever its inline overrides, inside the
    scroll container [0]; its bounding rectangle moves with the scroll
    offset. *)
Definition block_at (pos : Position) : Element :=
  {| style_left := None;
     style_top := None;
     offsets := fun _ _ => pos;
     rect_top := fun _ _ scroll => (inject_Z (top pos) - scroll 0%nat)%Q;
     scrollTop := fun _ => 0%Q;
     scroll_parent := Some 0%nat |}.

Definition all_on : Props :=
  {| isSelected := true; adjustScrolling := true; enableAnimation := true |}.

Definition animation_off : Props :=
  {| isSelected := true; adjustScrolling := true; enableAnimation := false |}.

(** An instance that has committed once, with the block at
    [{ top: 100, left: 50 }]. *)
Definition mounted_instance : Instance :=
  step (Render false all_on true (fun e => e))
       (mount (block_at {| top := 100; left := 50 |})).

(** The re-layout that moves the block to [{ top: 20, left: 50 }]. *)
Definition move_up (_ : Element) : Element := block_at {| top := 20; left := 50 |}.

(** A frame whose offsets are a quarter of a pixel. *)
Definition quarter_frame : Frame := {| value_x := 1 # 4; value_y := - (1 # 4) |}.

(** The hook state once a move by 80 pixels upwards was frozen with the
    block's bounding rectangle at 20. *)
Definition frozen_state : HookState :=
  setTransform {| x := 0; y := 80; clientTop := 20 |}
    (set_scrollContainer (Some 0%nat) initial).

(** A frame in the middle of a vertical move. *)
Definition moving_frame : Frame := {| value_x := 0; value_y := 161 # 4 |}.

End Examples.

(** ** A relatively positioned block

    A concrete layout oracle in which an inline [left] / [top] length
    shifts the block from its place in the flow, as CSS does for
    [position: relative]. *)
Module Layout.
Import Dom.

(** Drops a trailing [px] unit. *)
Fixpoint strip_px (s : string) : string :=
  match s with
  | EmptyString => EmptyString
  | String c rest =>
    if Ascii.eqb c "p"%char && String.eqb rest "x" then EmptyString
    else String c (strip_px rest)
  end.

(** The pixel count of an inline length; no override shifts by 0. *)
Definition parse_px (o : option string) : Z :=
  match o with
  | None => 0
  | Some s =>
    match NilZero.int_of_string (strip_px s) with
    | Some d => Z.of_int d
    | None => 0
    end
  end.

(** No character of the string is the letter p. *)
Fixpoint no_p (s : string) : bool :=
  match s with
  | EmptyString => true
  | String c rest => negb (Ascii.eqb c "p"%char) && no_p rest
  end.

(** A block whose place in the flow is [flow], inside the scroll container
    [0]; its bounding rectangle follows its offset and the scroll offset. *)
Definition relative_block (flow : Position) : Element :=
  {| style_left := None;
     style_top := None;
     offsets := fun l t =>
       {| top := top flow + parse_px t; left := left flow + parse_px l |};
     rect_top := fun l t scroll =>
       (inject_Z (top flow + parse_px t) - scroll 0%nat)%Q;
     scrollTop := fun _ => 0%Q;
     scroll_parent := Some 0%nat |}.

End Layout.

(** ** Runs under reduced motion *)
Module Reduced.
Import MovingAnimation.

(** The events of an instance whose every render has
    [prefersReducedMotion] set. *)
Definition reduced_event (ev : Event) : Prop :=
  match ev with
  | Render useReducedMotion p _ _ =>
    useReducedMotion || negb (enableAnimation p) = true
  | AnimationFrame => True
  end.

End Reduced.

(** * Properties *)

(** ** Rounding and comparison of numbers *)
Section Numbers.
Import JS.

Lemma Math_round_inject_Z (n : Z) : Math_round (inject_Z n) = n.
Proof.
  unfold Math_round.
  assert (Hlo : (inject_Z n <= inject_Z n + (1 # 2))%Q) by lra.
  assert (Hhi : (inject_Z n + (1 # 2) < inject_Z (n + 1))%Q).
  { rewrite inject_Z_plus. change (inject_Z 1) with 1%Q. lra. }
  apply Qfloor_resp_le in Hlo. rewrite Qfloor_Z in Hlo.
  pose proof (Qfloor_le (inject_Z n + (1 # 2))) as Hfl.
  assert (Hlt : (inject_Z (Qfloor (inject_Z n + (1 # 2))) < inject_Z (n + 1))%Q) by lra.
  rewrite <- Zlt_Qlt in Hlt. lia.
Qed.

(** [Math.round v] is the integer within half a unit of [v], the upper
    one on a tie. *)
Lemma Math_round_nearest (v : Q) :
  (inject_Z (Math_round v) - (1 # 2) <= v
   /\ v < inject_Z (Math_round v) + (1 # 2))%Q.
Proof.
  unfold Math_round.
  pose proof (Qfloor_le (v + (1 # 2))) as Hlo.
  pose proof (Qlt_floor (v + (1 # 2))) as Hhi.
  rewrite inject_Z_plus in Hhi. change (inject_Z 1) with 1%Q in Hhi.
  split; lra.
Qed.

Lemma Math_round_zero_iff (v : Q) :
  Math_round v = 0 <-> (- (1 # 2) <= v /\ v < 1 # 2)%Q.
Proof.
  split.
  - intros H. pose proof (Math_round_nearest v) as [Hlo Hhi].
    rewrite H in Hlo, Hhi. change (inject_Z 0) with 0%Q in *. split; lra.
  - intros [Hlo Hhi]. unfold Math_round.
    assert (H0 : (inject_Z 0 <= v + (1 # 2))%Q) by (change (inject_Z 0) with 0%Q; lra).
    apply Qfloor_resp_le in H0. rewrite Qfloor_Z in H0.
    pose proof (Qfloor_le (v + (1 # 2))) as Hfl.
    assert (Hlt : (inject_Z (Qfloor (v + (1 # 2))) < inject_Z 1)%Q) by (change (inject_Z 1) with 1%Q; lra).
    rewrite <- Zlt_Qlt in Hlt. lia.
Qed.

Lemma is_zero_true (v : Q) : is_zero v = true <-> (v == 0)%Q.
Proof. unfold is_zero. apply Qeq_bool_iff. Qed.

Lemma is_zero_false (v : Q) : is_zero v = false <-> ~ (v == 0)%Q.
Proof.
  rewrite <- is_zero_true. destruct (is_zero v); split; intros; congruence.
Qed.

Lemma Math_round_of_zero (v : Q) : (v == 0)%Q -> Math_round v = 0.
Proof. intros H. apply Math_round_zero_iff. rewrite H. split; lra. Qed.

End Numbers.

(** ** The style returned by [useMovingAnimation] *)
Section ReturnedStyle.
Import JS Dom MovingAnimation.

(** The hook's [prefersReducedMotion] is the preference or a disabled
    animation. *)
Lemma prefersReducedMotion_eq rm ref p s :
  prefersReducedMotion (useMovingAnimation rm ref p s)
  = rm || negb (enableAnimation p).
Proof. reflexivity. Qed.

Lemma style_animated rm ref p s :
  prefersReducedMotion (useMovingAnimation rm ref p s) = false ->
  style (useMovingAnimation rm ref p s)
  = [ ("left"%string, interpolate1 animationProps_x left_fn);
      ("top"%string, interpolate1 animationProps_y top_fn);
      ("zIndex"%string,
       interpolate2 animationProps_x animationProps_y (zIndex_fn (isSelected p))) ].
Proof.
  rewrite prefersReducedMotion_eq. unfold useMovingAnimation; simpl.
  intros ->. reflexivity.
Qed.

(** What each key of the animated style shows on a frame. *)
Lemma shown_keys rm ref p s f :
  prefersReducedMotion (useMovingAnimation rm ref p s) = false ->
  let shown := applied_style f (style (useMovingAnimation rm ref p s)) in
  style_get "left" shown = left_fn (value_x f)
  /\ style_get "top" shown = top_fn (value_y f)
  /\ style_get "zIndex" shown = zIndex_fn (isSelected p) (value_x f) (value_y f)
  /\ (left_fn (value_x f) = None -> top_fn (value_y f) = None ->
      shown = match zIndex_fn (isSelected p) (value_x f) (value_y f) with
              | Some z => [("zIndex"%string, z)]
              | None => []
              end).
Proof.
  intros H. rewrite (style_animated _ _ _ _ H). cbn.
  destruct (left_fn (value_x f)), (top_fn (value_y f)),
    (zIndex_fn (isSelected p) (value_x f) (value_y f)); cbn;
    repeat split; intros; congruence.
Qed.

Lemma zIndex_fn_spec sel vx vy :
  zIndex_fn sel vx vy
  = if sel && negb (is_zero vx && is_zero vy) then Some "1"%string else None.
Proof. unfold zIndex_fn. destruct sel, (is_zero vx), (is_zero vy); reflexivity. Qed.

(** C3: on every frame of the animated style the [left] and [top]
    values are the interpolated offsets rounded to the nearest integer
    pixel ([Math.round], within half a pixel of the offset), an axis whose
    rounded offset is 0 shows nothing, and once both offsets are exactly
    zero the frame applies no declaration at all. *)
Theorem C3_frame_values_rounded rm ref p s f :
  prefersReducedMotion (useMovingAnimation rm ref p s) = false ->
  let shown := applied_style f (style (useMovingAnimation rm ref p s)) in
  let rx := Math_round (value_x f) in
  let ry := Math_round (value_y f) in
  (inject_Z rx - (1 # 2) <= value_x f /\ value_x f < inject_Z rx + (1 # 2))%Q
  /\ (inject_Z ry - (1 # 2) <= value_y f /\ value_y f < inject_Z ry + (1 # 2))%Q
  /\ style_get "left" shown = (if rx =? 0 then None else Some (px rx))
  /\ style_get "top" shown = (if ry =? 0 then None else Some (px ry))
  /\ ((value_x f == 0)%Q -> (value_y f == 0)%Q -> shown = []).
Proof.
  intros H shown rx ry.
  destruct (shown_keys rm ref p s f H) as (Hl & Ht & Hz & Hall).
  split; [apply Math_round_nearest|].
  split; [apply Math_round_nearest|].
  split; [exact Hl|]. split; [exact Ht|].
  intros Hx Hy. subst shown. rewrite Hall.
  - rewrite zIndex_fn_spec.
    apply is_zero_true in Hx, Hy. rewrite Hx, Hy.
    destruct (isSelected p); reflexivity.
  - unfold left_fn. rewrite (Math_round_of_zero _ Hx). reflexivity.
  - unfold top_fn. rewrite (Math_round_of_zero _ Hy). reflexivity.
Qed.

(** C5: on every frame of the animated style the [zIndex] value is
    either absent or the fixed value '1'; it is '1' exactly when the
    element is selected and the offsets are not both zero, so it is absent
    whenever the element is not selected and whenever both offsets are
    zero. *)
Theorem C5_zIndex_while_selected_and_moving rm ref p s f :
  prefersReducedMotion (useMovingAnimation rm ref p s) = false ->
  let shown := applied_style f (style (useMovingAnimation rm ref p s)) in
  (style_get "zIndex" shown = Some "1"%string
   <-> isSelected p = true /\ ~ ((value_x f == 0)%Q /\ (value_y f == 0)%Q))
  /\ (style_get "zIndex" shown = None
      <-> isSelected p = false \/ ((value_x f == 0)%Q /\ (value_y f == 0)%Q)).
Proof.
  intros H shown.
  destruct (shown_keys rm ref p s f H) as (_ & _ & Hz & _).
  subst shown. rewrite Hz, zIndex_fn_spec.
  assert (Hb : is_zero (value_x f) && is_zero (value_y f) = true
               <-> (value_x f == 0)%Q /\ (value_y f == 0)%Q).
  { rewrite andb_true_iff, !is_zero_true. tauto. }
  destruct (isSelected p), (is_zero (value_x f) && is_zero (value_y f));
    cbn; intuition congruence.
Qed.

(** C10: when the element is selected and both offsets are nonzero
    but smaller than half a pixel in absolute value, the frame applies the
    z-index '1' and neither a [left] nor a [top] declaration: the
    positional values test the rounded offset, the z-index the exact
    one. *)
Theorem C10_zIndex_without_offsets rm ref p s f :
  prefersReducedMotion (useMovingAnimation rm ref p s) = false ->
  isSelected p = true ->
  ~ (value_x f == 0)%Q -> ~ (value_y f == 0)%Q ->
  (- (1 # 2) < value_x f /\ value_x f < 1 # 2)%Q ->
  (- (1 # 2) < value_y f /\ value_y f < 1 # 2)%Q ->
  applied_style f (style (useMovingAnimation rm ref p s)) = [("zIndex"%string, "1"%string)].
Proof.
  intros H Hsel Hx Hy [Hx1 Hx2] [Hy1 Hy2].
  destruct (shown_keys rm ref p s f H) as (_ & _ & _ & Hall).
  rewrite Hall.
  - rewrite zIndex_fn_spec, Hsel.
    apply is_zero_false in Hx. rewrite Hx. reflexivity.
  - unfold left_fn.
    assert (E : Math_round (value_x f) = 0) by (apply Math_round_zero_iff; split; lra).
    rewrite E. reflexivity.
  - unfold top_fn.
    assert (E : Math_round (value_y f) = 0) by (apply Math_round_zero_iff; split; lra).
    rewrite E. reflexivity.
Qed.

Lemma C3_witness :
  let shown := applied_style Examples.moving_frame
                 (style (useMovingAnimation false None Examples.all_on initial)) in
  style_get "left" shown = None /\ style_get "top" shown = Some "40px"%string.
Proof.
  destruct (C3_frame_values_rounded false None Examples.all_on initial
              Examples.moving_frame eq_refl) as (_ & _ & Hl & Ht & _).
  split; [exact Hl | exact Ht].
Defined.

Lemma C5_witness :
  style_get "zIndex"
    (applied_style Examples.moving_frame
       (style (useMovingAnimation false None Examples.all_on initial)))
  = Some "1"%string.
Proof.
  apply (proj2 (proj1 (C5_zIndex_while_selected_and_moving false None Examples.all_on
                         initial Examples.moving_frame eq_refl))).
  split; [reflexivity | intros [_ H]; discriminate H].
Defined.

Lemma C10_witness :
  applied_style Examples.quarter_frame
    (style (useMovingAnimation false None Examples.all_on initial))
  = [("zIndex"%string, "1"%string)].
Proof.
  apply C10_zIndex_without_offsets.
  - reflexivity.
  - reflexivity.
  - intros H; discriminate H.
  - intros H; discriminate H.
  - split; reflexivity.
  - split; reflexivity.
Defined.

End ReturnedStyle.

(** ** The layout effects and the frame callback *)
Section Effects.
Import JS Dom MovingAnimation.

Lemma destination_after_clearing e v w :
  (v = SEmpty \/ v = SNull) -> (w = SEmpty \/ w = SNull) ->
  getAbsolutePosition (set_style_top w (set_style_left v e)) = destination_of e.
Proof.
  intros [-> | ->] [-> | ->]; unfold getAbsolutePosition, offsetTop, offsetLeft,
    destination_of; cbn; destruct (offsets e None None); reflexivity.
Qed.

(** The animated branch of the second effect. *)
Lemma move_effect_animated r e s prev :
  previous r = Some prev ->
  prefersReducedMotion r = false ->
  let dx := left prev - left (destination_of e) in
  let dy := top prev - top (destination_of e) in
  let e' := fst (move_effect r e s) in
  let s' := snd (move_effect r e s) in
  style_left e' = (if dx =? 0 then None else Some (px dx))
  /\ style_top e' = (if dy =? 0 then None else Some (px dy))
  /\ scrollTop e' = scrollTop e
  /\ transform s' = {| x := dx; y := dy; clientTop := getBoundingClientRect_top e' |}
  /\ triggeredAnimation s' = triggeredAnimation s + 1
  /\ finishedAnimation s' = finishedAnimation s
  /\ scrollContainer s' = getScrollContainer e.
Proof.
  intros Hprev Hrm. unfold move_effect. rewrite Hprev, Hrm.
  rewrite (destination_after_clearing e SEmpty SEmpty) by (left; reflexivity).
  cbn zeta. cbn [fst snd].
  set (dx := left prev - left (destination_of e)).
  set (dy := top prev - top (destination_of e)).
  repeat split.
  - cbn. destruct (dx =? 0); reflexivity.
  - cbn. destruct (dy =? 0); reflexivity.
Qed.

(** The second effect never touches [finishedAnimation], and raises
    [triggeredAnimation] by one exactly on its animated branch. *)
Lemma move_effect_counters r e s :
  let s' := snd (move_effect r e s) in
  finishedAnimation s' = finishedAnimation s
  /\ triggeredAnimation s'
     = if bool_decide (is_Some (previous r)) && negb (prefersReducedMotion r)
       then triggeredAnimation s + 1 else triggeredAnimation s.
Proof.
  unfold move_effect.
  destruct (previous r) as [prev|]; [|split; reflexivity].
  destruct (prefersReducedMotion r); cbn [negb andb].
  - destruct (seen_adjustScrolling r); [|split; reflexivity].
    cbn. destruct (getScrollContainer e); split; reflexivity.
  - split; reflexivity.
Qed.

(** The first effect never touches [triggeredAnimation], and raises
    [finishedAnimation] by one exactly when the counter it saw is
    nonzero. *)
Lemma acknowledge_effect_counters r s :
  let s' := acknowledge_effect r s in
  triggeredAnimation s' = triggeredAnimation s
  /\ finishedAnimation s'
     = if seen_triggered r =? 0 then finishedAnimation s else finishedAnimation s + 1.
Proof.
  unfold acknowledge_effect, truthy.
  destruct (seen_triggered r =? 0); split; reflexivity.
Qed.

End Effects.

(** ** Measure and freeze *)
Section MeasureAndFreeze.
Import JS Dom MovingAnimation.

(** C1: when the trigger value changes on a mounted instance (a
    prior position was recorded) and reduced motion is not in effect, the
    commit leaves the element with an inline override equal to the delta
    previous - destination on each axis, where the destination is the
    position measured with the overrides cleared and an axis whose delta
    is 0 gets no override; the delta and the bounding-rect top are
    recorded in [transform], the trigger counter is incremented, and the
    next render's spring runs from the delta to (0, 0), its first frame
    showing exactly the inline override. *)
Theorem C1_measure_and_freeze i d rm p relayout :
  ack_deps i = Some d ->
  rm = false -> enableAnimation p = true ->
  let prev := getAbsolutePosition (element i) in
  let dest := destination_of (relayout (element i)) in
  let dx := left prev - left dest in
  let dy := top prev - top dest in
  let i' := step (Render rm p true relayout) i in
  style_left (element i') = (if dx =? 0 then None else Some (px dx))
  /\ style_top (element i') = (if dy =? 0 then None else Some (px dy))
  /\ transform (hook i')
     = {| x := dx; y := dy; clientTop := getBoundingClientRect_top (element i') |}
  /\ triggeredAnimation (hook i') = triggeredAnimation (hook i) + 1
  /\ (forall rm' p',
        let r' := useMovingAnimation rm' (ref_current i') p' (hook i') in
        let first := {| value_x := inject_Z dx; value_y := inject_Z dy |} in
        (from_x (spring r'), from_y (spring r')) = (dx, dy)
        /\ (to_x (spring r'), to_y (spring r')) = (0, 0)
        /\ (prefersReducedMotion r' = false ->
            style_get "left" (applied_style first (style r')) = style_left (element i')
            /\ style_get "top" (applied_style first (style r')) = style_top (element i'))).
Proof.
  intros Hd -> Hen prev dest dx dy i'.
  set (r := useMovingAnimation false (ref_current i) p (hook i)).
  set (s1 := if deps_changed (ack_deps i) (triggeredAnimation (hook i))
             then acknowledge_effect r (hook i) else hook i).
  assert (Hprev : previous r = Some prev).
  { unfold r, useMovingAnimation, ref_current. rewrite Hd. reflexivity. }
  assert (Hrm : prefersReducedMotion r = false).
  { unfold r. rewrite prefersReducedMotion_eq, Hen. reflexivity. }
  assert (Hs1 : triggeredAnimation s1 = triggeredAnimation (hook i)).
  { unfold s1. destruct (deps_changed _ _); [|reflexivity].
    apply acknowledge_effect_counters. }
  assert (Hel : element i' = fst (move_effect r (relayout (element i)) s1)) by reflexivity.
  assert (Hhk : hook i' = snd (move_effect r (relayout (element i)) s1)) by reflexivity.
  destruct (move_effect_animated r (relayout (element i)) s1 prev Hprev Hrm)
    as (Hl & Ht & _ & Htr & Htrig & _ & _).
  rewrite <- Hel, <- Hhk in *. fold dest dx dy in Hl, Ht, Htr.
  split; [exact Hl|]. split; [exact Ht|]. split; [exact Htr|].
  split; [rewrite Htrig, Hs1; reflexivity|].
  intros rm' p' r' first.
  split; [unfold r', useMovingAnimation; cbn [spring from_x from_y]; rewrite Htr; reflexivity|].
  split; [reflexivity|].
  intros Hrm'.
  destruct (shown_keys rm' (ref_current i') p' (hook i') first Hrm') as (Sl & St & _ & _).
  fold r' in Sl, St. rewrite Sl, St, Hl, Ht.
  unfold left_fn, top_fn, first; cbn [value_x value_y].
  rewrite !Math_round_inject_Z. split; reflexivity.
Qed.

(** The example of the specification: previous [{ top: 100, left: 50 }],
    destination [{ top: 20, left: 50 }]. *)
Lemma C1_witness :
  let i' := step (Render false Examples.all_on true Examples.move_up)
                 Examples.mounted_instance in
  getAbsolutePosition (element Examples.mounted_instance) = {| top := 100; left := 50 |}
  /\ destination_of (Examples.move_up (element Examples.mounted_instance))
     = {| top := 20; left := 50 |}
  /\ style_left (element i') = None
  /\ style_top (element i') = Some "80px"%string
  /\ x (transform (hook i')) = 0
  /\ y (transform (hook i')) = 80
  /\ (let r' := useMovingAnimation false (ref_current i') Examples.all_on (hook i') in
      from_y (spring r') = 80 /\ to_y (spring r') = 0).
Proof.
  intros i'.
  destruct (C1_measure_and_freeze Examples.mounted_instance 0 false Examples.all_on
              Examples.move_up eq_refl eq_refl eq_refl)
    as (Hl & Ht & Htr & _ & Hnext).
  destruct (Hnext false Examples.all_on) as (Hfrom & Hto & _).
  fold i' in Hl, Ht, Htr, Hfrom, Hto.
  split; [reflexivity|]. split; [reflexivity|].
  split; [exact Hl|]. split; [exact Ht|].
  split; [rewrite Htr; reflexivity|]. split; [rewrite Htr; reflexivity|].
  split; [exact (f_equal snd Hfrom) | exact (f_equal snd Hto)].
Defined.

End MeasureAndFreeze.

(** ** Reduced motion and scroll following *)
Section Scrolling.
Import JS Dom MovingAnimation.

(** C2: when the reduce-motion preference is active or
    [enableAnimation] is false, the returned style object is empty (no
    frame applies any declaration), the spring is immediate and its frame
    callback leaves the DOM alone, and the second effect performs the
    scroll adjustment on the spot: with a prior position, scroll following
    requested and a scroll container found, it clears the inline overrides
    and sets the container's [scrollTop] to
    [scrollTop - previous.top + destination.top], changing neither counter
    nor the transform; without the request or without a container it
    changes nothing in the DOM. *)
Theorem C2_reduced_motion rm ref p s :
  rm = true \/ enableAnimation p = false ->
  let r := useMovingAnimation rm ref p s in
  style r = []
  /\ (forall f, applied_style f (style r) = [])
  /\ immediate (spring r) = true
  /\ (forall e s', onFrame r e s' = e)
  /\ (forall e0 e s' c,
        ref = Some e0 -> adjustScrolling p = true -> getScrollContainer e = Some c ->
        let e' := fst (move_effect r e s') in
        let s'' := snd (move_effect r e s') in
        (scrollTop e' c
         = scrollTop e c - inject_Z (top (getAbsolutePosition e0))
           + inject_Z (top (destination_of e)))%Q
        /\ (forall m, m <> c -> scrollTop e' m = scrollTop e m)
        /\ style_left e' = None /\ style_top e' = None
        /\ triggeredAnimation s'' = triggeredAnimation s'
        /\ finishedAnimation s'' = finishedAnimation s'
        /\ transform s'' = transform s')
  /\ (forall e s',
        adjustScrolling p = false \/ getScrollContainer e = None ->
        fst (move_effect r e s') = e).
Proof.
  intros Hoff r.
  assert (Hrm : prefersReducedMotion r = true).
  { unfold r. rewrite prefersReducedMotion_eq.
    destruct Hoff as [-> | ->]; [reflexivity | apply orb_true_r]. }
  assert (Hst : style r = []).
  { unfold r, useMovingAnimation in *. cbn in *. rewrite Hrm. reflexivity. }
  split; [exact Hst|].
  split; [intros f; rewrite Hst; reflexivity|].
  split; [exact Hrm|].
  split.
  { intros e s'. unfold onFrame. rewrite Hrm.
    destruct (seen_adjustScrolling r), (scrollContainer s'); reflexivity. }
  split.
  - intros e0 e s' c -> Hadj Hc e' s''.
    subst e' s''. unfold move_effect.
    change (previous r) with (Some (getAbsolutePosition e0)).
    change (seen_adjustScrolling r) with (adjustScrolling p).
    rewrite Hrm, Hadj. cbn [scrollContainer set_scrollContainer]. rewrite Hc.
    rewrite (destination_after_clearing e SNull SNull) by (right; reflexivity).
    cbn [fst snd]. split.
    { cbn. rewrite Nat.eqb_refl. reflexivity. }
    split.
    { intros m Hm. cbn. apply Nat.eqb_neq in Hm. rewrite Hm. reflexivity. }
    repeat split.
  - intros e s' Hno. unfold move_effect.
    change (seen_adjustScrolling r) with (adjustScrolling p).
    rewrite Hrm. destruct (previous r); [|reflexivity].
    cbn [scrollContainer set_scrollContainer].
    destruct Hno as [-> | ->]; [reflexivity|].
    destruct (adjustScrolling p); reflexivity.
Qed.

Lemma C2_witness :
  let r := useMovingAnimation false (Some (Examples.block_at {| top := 100; left := 50 |}))
             Examples.animation_off initial in
  let moved := Examples.block_at {| top := 20; left := 50 |} in
  style r = []
  /\ immediate (spring r) = true
  /\ (scrollTop (fst (move_effect r moved initial)) 0%nat == - (80 # 1))%Q.
Proof.
  intros r moved.
  destruct (C2_reduced_motion false (Some (Examples.block_at {| top := 100; left := 50 |}))
              Examples.animation_off initial (or_intror eq_refl))
    as (Hst & _ & Him & _ & Hjump & _).
  destruct (Hjump _ moved initial 0%nat eq_refl eq_refl eq_refl) as (Hs & _).
  fold r in Hst, Him, Hs.
  split; [exact Hst|]. split; [exact Him|].
  rewrite Hs. reflexivity.
Defined.

(** C7: on a frame of a render with scroll following requested and
    reduced motion not in effect, when a scroll container is recorded the
    callback increases that container's [scrollTop] by exactly the
    element's live bounding-rect top minus the [clientTop] of the
    transform state, and changes nothing else. *)
Theorem C7_frame_follows_scroll rm ref p s0 e s c :
  rm = false -> enableAnimation p = true ->
  adjustScrolling p = true ->
  scrollContainer s = Some c ->
  let r := useMovingAnimation rm ref p s0 in
  let e' := onFrame r e s in
  scrollTop e' c
  = (scrollTop e c + (getBoundingClientRect_top e - clientTop (transform s0)))%Q
  /\ (forall m, m <> c -> scrollTop e' m = scrollTop e m)
  /\ style_left e' = style_left e /\ style_top e' = style_top e.
Proof.
  intros -> Hen Hadj Hc r e'. subst e'. unfold onFrame.
  change (seen_adjustScrolling r) with (adjustScrolling p).
  change (seen_transform r) with (transform s0).
  assert (Hrm : prefersReducedMotion r = false).
  { unfold r. rewrite prefersReducedMotion_eq, Hen. reflexivity. }
  rewrite Hadj, Hc, Hrm. cbn [negb].
  split; [cbn; rewrite Nat.eqb_refl; reflexivity|].
  split; [|split; reflexivity].
  intros m Hm. cbn. apply Nat.eqb_neq in Hm. rewrite Hm. reflexivity.
Qed.

Lemma C7_witness :
  let r := useMovingAnimation false None Examples.all_on Examples.frozen_state in
  let e := Examples.block_at {| top := 50; left := 50 |} in
  (getBoundingClientRect_top e == 50)%Q
  /\ (scrollTop (onFrame r e Examples.frozen_state) 0%nat == 30)%Q.
Proof.
  intros r e.
  destruct (C7_frame_follows_scroll false None Examples.all_on Examples.frozen_state
              e Examples.frozen_state 0%nat eq_refl eq_refl eq_refl eq_refl)
    as (Hs & _).
  fold r in Hs. split; [reflexivity|]. rewrite Hs. reflexivity.
Defined.

End Scrolling.

(** ** The generation counters *)
Section Generations.
Import JS Dom MovingAnimation.

Lemma step_counters ev i :
  let i' := step ev i in
  (triggeredAnimation (hook i') = triggeredAnimation (hook i)
   \/ triggeredAnimation (hook i') = triggeredAnimation (hook i) + 1)
  /\ (finishedAnimation (hook i') = finishedAnimation (hook i)
      \/ finishedAnimation (hook i') = finishedAnimation (hook i) + 1).
Proof.
  destruct ev as [rm p changed relayout|]; cbn [step].
  - set (r := useMovingAnimation rm (ref_current i) p (hook i)).
    set (s1 := if deps_changed (ack_deps i) (triggeredAnimation (hook i))
               then acknowledge_effect r (hook i) else hook i).
    assert (H1 : triggeredAnimation s1 = triggeredAnimation (hook i)
                 /\ (finishedAnimation s1 = finishedAnimation (hook i)
                     \/ finishedAnimation s1 = finishedAnimation (hook i) + 1)).
    { unfold s1. destruct (deps_changed _ _); [|split; [|left]; reflexivity].
      destruct (acknowledge_effect_counters r (hook i)) as [Ht Hf].
      split; [exact Ht|]. cbn zeta in Hf. rewrite Hf.
      destruct (seen_triggered r =? 0); [left|right]; reflexivity. }
    destruct H1 as [Ht Hf].
    destruct (changed || negb (bool_decide (is_Some (ack_deps i)))); cbn [fst snd hook].
    + destruct (move_effect_counters r (relayout (element i)) s1) as [Mf Mt].
      cbn zeta in Mf, Mt. rewrite Mf, Mt, Ht.
      split; [|exact Hf].
      destruct (_ && _); [right|left]; reflexivity.
    + rewrite Ht. split; [left; reflexivity | exact Hf].
  - destruct (latest i); cbn; split; left; reflexivity.
Qed.

Lemma run_monotone evs i :
  triggeredAnimation (hook i) <= triggeredAnimation (hook (run evs i))
  /\ finishedAnimation (hook i) <= finishedAnimation (hook (run evs i)).
Proof.
  revert i. induction evs as [|ev evs IH]; intros i; cbn.
  - lia.
  - destruct (IH (step ev i)) as [IHt IHf].
    destruct (step_counters ev i) as [Ht Hf]. cbn zeta in Ht, Hf.
    fold (run evs (step ev i)). lia.
Qed.

Lemma step_generations_ok ev i : generations_ok i -> generations_ok (step ev i).
Proof.
  unfold generations_ok. intros Hi.
  destruct ev as [rm p changed relayout|]; cbn [step].
  - set (r := useMovingAnimation rm (ref_current i) p (hook i)).
    set (s1 := if deps_changed (ack_deps i) (triggeredAnimation (hook i))
               then acknowledge_effect r (hook i) else hook i).
    set (es := if changed || negb (bool_decide (is_Some (ack_deps i)))
               then move_effect r (relayout (element i)) s1
               else (relayout (element i), s1)).
    cbn [ack_deps hook].
    assert (Hes : finishedAnimation (snd es) = finishedAnimation s1
                  /\ (triggeredAnimation (snd es) = triggeredAnimation s1
                      \/ triggeredAnimation (snd es) = triggeredAnimation s1 + 1)).
    { unfold es. destruct (_ || _); [|split; [|left]; reflexivity].
      destruct (move_effect_counters r (relayout (element i)) s1) as [Mf Mt].
      cbn zeta in Mf, Mt. rewrite Mf, Mt. split; [reflexivity|].
      destruct (_ && _); [right|left]; reflexivity. }
    destruct Hes as [Ef Et].
    destruct (acknowledge_effect_counters r (hook i)) as [At Af].
    cbn zeta in At, Af. change (seen_triggered r) with (triggeredAnimation (hook i)) in Af.
    destruct (ack_deps i) as [d|] eqn:Hd.
    + destruct Hi as (Hd0 & Hf & Ht). unfold deps_changed in s1.
      destruct (d =? triggeredAnimation (hook i)) eqn:Heq; cbn [negb] in s1.
      * apply Z.eqb_eq in Heq. subst s1. lia.
      * apply Z.eqb_neq in Heq. subst s1.
        assert (Hnz : (triggeredAnimation (hook i) =? 0) = false) by (apply Z.eqb_neq; lia).
        rewrite Hnz in Af. lia.
    + destruct Hi as [Ht Hf]. unfold deps_changed in s1. subst s1.
      rewrite Ht in Af. cbn in Af. lia.
  - destruct (latest i); exact Hi.
Qed.

Lemma run_generations_ok evs i : generations_ok i -> generations_ok (run evs i).
Proof.
  revert i. induction evs as [|ev evs IH]; intros i Hi; cbn; [exact Hi|].
  apply IH, step_generations_ok, Hi.
Qed.

(** X2: throughout the life of a mounted instance the acknowledged
    count is never negative and trails the trigger count by at most one. *)
Lemma generations_gap evs e :
  let s := hook (run evs (mount e)) in
  0 <= finishedAnimation s
  /\ finishedAnimation s <= triggeredAnimation s
  /\ triggeredAnimation s <= finishedAnimation s + 1.
Proof.
  assert (H : generations_ok (run evs (mount e))).
  { apply run_generations_ok. split; reflexivity. }
  unfold generations_ok in H. cbn zeta.
  destruct (ack_deps (run evs (mount e))); lia.
Qed.

(** C6: both counters start at 0; every step of the life cycle
    leaves each counter unchanged or raises it by exactly 1, so along any
    run they never decrease; [triggeredAnimation] is raised only by the
    second effect, exactly when it starts an animation, and
    [finishedAnimation] only by the first effect, exactly when the trigger
    count it saw is nonzero; and the spring's [reset] flag holds exactly
    when the two counters differ. *)
Theorem C6_generation_counters :
  (forall e, triggeredAnimation (hook (mount e)) = 0
             /\ finishedAnimation (hook (mount e)) = 0)
  /\ (forall ev i,
        (triggeredAnimation (hook (step ev i)) = triggeredAnimation (hook i)
         \/ triggeredAnimation (hook (step ev i)) = triggeredAnimation (hook i) + 1)
        /\ (finishedAnimation (hook (step ev i)) = finishedAnimation (hook i)
            \/ finishedAnimation (hook (step ev i)) = finishedAnimation (hook i) + 1))
  /\ (forall evs i,
        triggeredAnimation (hook i) <= triggeredAnimation (hook (run evs i))
        /\ finishedAnimation (hook i) <= finishedAnimation (hook (run evs i)))
  /\ (forall r e s,
        finishedAnimation (snd (move_effect r e s)) = finishedAnimation s
        /\ triggeredAnimation (snd (move_effect r e s))
           = if bool_decide (is_Some (previous r)) && negb (prefersReducedMotion r)
             then triggeredAnimation s + 1 else triggeredAnimation s)
  /\ (forall r s,
        triggeredAnimation (acknowledge_effect r s) = triggeredAnimation s
        /\ finishedAnimation (acknowledge_effect r s)
           = if seen_triggered r =? 0 then finishedAnimation s
             else finishedAnimation s + 1)
  /\ (forall rm ref p s,
        reset (spring (useMovingAnimation rm ref p s)) = true
        <-> triggeredAnimation s <> finishedAnimation s).
Proof.
  split; [intros e; split; reflexivity|].
  split; [exact step_counters|].
  split; [exact run_monotone|].
  split; [exact move_effect_counters|].
  split; [exact acknowledge_effect_counters|].
  intros rm ref p s. cbn.
  rewrite negb_true_iff. apply Z.eqb_neq.
Qed.

End Generations.

(** ** The heading-level dropdown *)
Section Dropdown.
Import HeadingLevel.

Variable ClientId : Type.
Variable useIsHeadingLevelValid : ClientId -> Z -> bool.
Variable DOWN : Z.

(** The toggle shows the indicator exactly when the hook's result is
    [true]. *)
Lemma indicator_follows_hook_result clientId selectedLevel isOpen :
  shows_invalid_indicator (renderToggle (HeadingLevelDropdown ClientId useIsHeadingLevelValid DOWN clientId selectedLevel) isOpen)
  = useIsHeadingLevelValid clientId selectedLevel.
Proof.
  unfold shows_invalid_indicator, HeadingLevelDropdown; cbn.
  destruct (useIsHeadingLevelValid clientId selectedLevel); reflexivity.
Qed.

(** C8: a key-down on the toggle fires [onToggle] if and only if the
    popover is closed and the key is [DOWN]; when it fires, the default
    action is prevented (and propagation stopped) first and the toggle
    fires once; otherwise the handler does nothing, so an open popover is
    never toggled by a key-down. *)
Theorem C8_open_on_arrow_down clientId selectedLevel isOpen event :
  let handler := onKeyDown (renderToggle (HeadingLevelDropdown ClientId useIsHeadingLevelValid DOWN clientId selectedLevel) isOpen) in
  (In onToggle (handler event) <-> isOpen = false /\ keyCode event = DOWN)
  /\ (In onToggle (handler event) ->
      handler event = [preventDefault; stopPropagation; onToggle])
  /\ (~ In onToggle (handler event) -> handler event = [])
  /\ (isOpen = true -> handler event = []).
Proof.
  cbn. unfold openOnArrowDown.
  destruct isOpen; cbn [negb andb].
  - split; [split; [intros [] | intros [H _]; discriminate]|].
    split; [intros []|]. split; reflexivity.
  - destruct (keyCode event =? DOWN) eqn:E.
    + apply Z.eqb_eq in E.
      split; [split; [intros _; split; [reflexivity | exact E] | intros _; cbn; tauto]|].
      split; [reflexivity|].
      split; [intros H; exfalso; apply H; cbn; tauto | discriminate].
    + apply Z.eqb_neq in E.
      split; [split; [intros [] | intros [_ H]; contradiction]|].
      split; [intros []|]. split; [reflexivity | discriminate].
Qed.

End Dropdown.

(** C4: evaluated with a hook that reports every level valid, the
    toggle of a level-2 heading contains the invalidity indicator; with a
    hook that reports every level not valid, it does not.  The component
    binds the hook's validity result to [levelIsInvalid] unnegated. *)
Theorem C4_indicator_shown_for_valid_level :
  HeadingLevel.shows_invalid_indicator
    (HeadingLevel.renderToggle
       (HeadingLevel.HeadingLevelDropdown unit (fun _ _ => true) 40 tt 2) false) = true
  /\ HeadingLevel.shows_invalid_indicator
       (HeadingLevel.renderToggle
          (HeadingLevel.HeadingLevelDropdown unit (fun _ _ => false) 40 tt 2) false) = false.
Proof. split; reflexivity. Qed.

(** ** The selectors *)
Section SelectorProperties.
Import Selectors.

Variable DownloadableBlock : Type.

(** C9: over any state, [getErrorNoticeForBlock] answers the stored
    string for a key that is present and [false] for one that is not, and
    [getDownloadableBlocks] answers the stored array for a query that is
    present and the empty array for one that is not; on the states of the
    test suite, 'block/has-error' yields 'Error notice', 'block/no-error'
    yields [false], 'boxer' yields the one-element fixture array and
    'not-found' yields []. *)
Theorem C9_missing_keys_default (state : State DownloadableBlock) (key : string)
    (downloadableBlock : DownloadableBlock) :
  (forall text, errorNotices state !! key = Some text ->
                getErrorNoticeForBlock state key = Notice text)
  /\ (errorNotices state !! key = None ->
      getErrorNoticeForBlock state key = False_)
  /\ (forall blocks, results (downloadableBlocks state) !! key = Some blocks ->
                     getDownloadableBlocks state key = blocks)
  /\ (results (downloadableBlocks state) !! key = None ->
      getDownloadableBlocks state key = [])
  /\ getErrorNoticeForBlock (state_with_error_notice DownloadableBlock) "block/has-error"
     = Notice "Error notice"
  /\ getErrorNoticeForBlock (state_with_error_notice DownloadableBlock) "block/no-error"
     = False_
  /\ getDownloadableBlocks (state_with_results downloadableBlock) "boxer"
     = [downloadableBlock]
  /\ getDownloadableBlocks (state_with_results downloadableBlock) "not-found" = [].
Proof.
  unfold getErrorNoticeForBlock, getDownloadableBlocks.
  split; [intros text ->; reflexivity|].
  split; [intros ->; reflexivity|].
  split; [intros blocks ->; reflexivity|].
  split; [intros ->; reflexivity|].
  cbn [state_with_error_notice state_with_results errorNotices downloadableBlocks results].
  rewrite !lookup_singleton_eq.
  rewrite !lookup_singleton_ne by discriminate.
  repeat split.
Qed.

End SelectorProperties.

(** ** Pixel lengths *)
Section PixelLengths.
Import JS Dom MovingAnimation Layout.

Lemma no_p_uint (d : Decimal.uint) : no_p (NilEmpty.string_of_uint d) = true.
Proof. induction d; cbn; auto. Qed.

Lemma no_p_num_str (n : Z) : no_p (num_str n) = true.
Proof.
  unfold num_str, NilZero.string_of_int, NilZero.string_of_uint.
  destruct (Z.to_int n) as [d | d]; destruct d; cbn; auto using no_p_uint.
Qed.

Lemma strip_px_app (s : string) :
  no_p s = true -> strip_px (s ++ "px") = s.
Proof.
  induction s as [|c rest IH]; [reflexivity|].
  intros H. cbn [no_p] in H.
  apply andb_true_iff in H as [Hc Hrest].
  apply negb_true_iff in Hc.
  change (String c rest ++ "px")%string with (String c (rest ++ "px"))%string.
  cbn [strip_px]. rewrite Hc. cbn [andb]. f_equal. apply IH, Hrest.
Qed.

Lemma to_int_proper (n : Z) :
  Z.to_int n <> Decimal.Pos Decimal.Nil /\ Z.to_int n <> Decimal.Neg Decimal.Nil.
Proof.
  destruct n as [|q|q]; cbn; split; try discriminate;
    intros [= H]; exact (DecimalPos.Unsigned.to_uint_nonnil q H).
Qed.

(** Reading back the length written for [n] pixels gives [n]. *)
Lemma parse_px_px (n : Z) : parse_px (Some (px n)) = n.
Proof.
  unfold parse_px, px. rewrite strip_px_app by apply no_p_num_str.
  unfold num_str. destruct (to_int_proper n) as [Hp Hn].
  rewrite (NilZero.isi _ Hp Hn). apply DecimalZ.of_to.
Qed.

(** The template [`${ n }px`] determines [n]: two pixel counts render
    to the same length exactly when they are equal. *)
Theorem px_injective (n m : Z) : px n = px m <-> n = m.
Proof.
  split; [|intros ->; reflexivity].
  intros H. rewrite <- (parse_px_px n), <- (parse_px_px m), H. reflexivity.
Qed.

(** X7: a positional value of the returned style is never a zero
    length: whatever the interpolated offset, [left] and [top] are either
    absent or the length of a nonzero whole number of pixels, so never
    '0px' nor '-0px'. *)
Theorem positional_value_never_zero (v : Q) (shown : string) :
  left_fn v = Some shown \/ top_fn v = Some shown ->
  (exists n, n <> 0 /\ shown = px n)
  /\ shown <> "0px"%string /\ shown <> "-0px"%string.
Proof.
  intros H.
  assert (Hn : exists n, n <> 0 /\ shown = px n).
  { unfold left_fn, top_fn in H.
    destruct (Math_round v =? 0) eqn:E.
    - destruct H; discriminate.
    - apply Z.eqb_neq in E. exists (Math_round v). split; [exact E|].
      destruct H as [H | H]; inversion H; reflexivity. }
  split; [exact Hn|].
  destruct Hn as (n & Hn & ->).
  split; intros Heq; apply Hn; rewrite <- (parse_px_px n), Heq; reflexivity.
Qed.

Lemma positional_value_never_zero_witness :
  left_fn (161 # 4) = Some "40px"%string
  /\ "40px"%string <> "0px"%string.
Proof.
  split; [reflexivity|].
  exact (proj1 (proj2 (positional_value_never_zero (161 # 4) "40px"
                         (or_introl eq_refl)))).
Defined.

End PixelLengths.

(** ** Further behaviour of the animation hook *)
Section LifeCycle.
Import JS Dom MovingAnimation Reduced.

(** X1: the first commit of an instance animates nothing, whatever the
    arguments: no prior position exists, so both counters stay 0, the
    transform stays zero, no scroll container is recorded and the DOM is
    exactly what React committed. *)
Theorem first_commit_skips_measuring rm p changed relayout e :
  let i := step (Render rm p changed relayout) (mount e) in
  hook i = initial
  /\ element i = relayout e
  /\ ack_deps i = Some 0
  /\ reset (spring (useMovingAnimation rm (ref_current i) p (hook i))) = false.
Proof.
  cbv zeta. unfold step, mount. cbn [ack_deps hook element latest ref_current].
  replace (changed || negb (bool_decide (is_Some (@None Z)))) with true
    by (symmetry; apply orb_true_r).
  cbn. repeat split.
Qed.

(** X3: on a settled instance (equal counters) an animated trigger
    makes the next render's spring reset, and the re-render that follows
    without a new trigger acknowledges it: the counters are equal again,
    the reset flag is down, and the recorded transform is kept. *)
Theorem trigger_then_rerender_settles i d p relayout rm' p' relayout' :
  generations_ok i ->
  ack_deps i = Some d ->
  triggeredAnimation (hook i) = finishedAnimation (hook i) ->
  enableAnimation p = true ->
  let i1 := step (Render false p true relayout) i in
  let i2 := step (Render rm' p' false relayout') i1 in
  (forall rm ref q, reset (spring (useMovingAnimation rm ref q (hook i1))) = true)
  /\ (forall rm ref q, reset (spring (useMovingAnimation rm ref q (hook i2))) = false)
  /\ triggeredAnimation (hook i2) = triggeredAnimation (hook i) + 1
  /\ finishedAnimation (hook i2) = finishedAnimation (hook i) + 1
  /\ transform (hook i2) = transform (hook i1).
Proof.
  intros Hok Hd Heq Hen i1 i2.
  unfold generations_ok in Hok. rewrite Hd in Hok. destruct Hok as (Hd0 & Hf & _).
  assert (Ht : triggeredAnimation (hook i) = d) by lia.
  set (r := useMovingAnimation false (ref_current i) p (hook i)).
  assert (Hprev : previous r = Some (getAbsolutePosition (element i))).
  { unfold r, useMovingAnimation, ref_current. rewrite Hd. reflexivity. }
  assert (Hrm : prefersReducedMotion r = false).
  { unfold r. rewrite prefersReducedMotion_eq, Hen. reflexivity. }
  assert (Hi1 : hook i1 = snd (move_effect r (relayout (element i)) (hook i))).
  { unfold i1. cbn [step hook]. fold r. rewrite Hd. unfold deps_changed.
    rewrite Ht, Z.eqb_refl. reflexivity. }
  assert (Hd1 : ack_deps i1 = Some d) by (unfold i1; cbn; rewrite Ht; reflexivity).
  destruct (move_effect_counters r (relayout (element i)) (hook i)) as [Mf Mt].
  cbn zeta in Mf, Mt. rewrite Hprev, Hrm in Mt. cbn in Mt.
  rewrite <- Hi1 in Mf, Mt.
  set (r1 := useMovingAnimation rm' (ref_current i1) p' (hook i1)).
  assert (Hi2 : hook i2 = acknowledge_effect r1 (hook i1)).
  { unfold i2. cbn [step hook]. fold r1. rewrite Hd1. unfold deps_changed.
    assert (E : (d =? triggeredAnimation (hook i1)) = false) by (apply Z.eqb_neq; lia).
    rewrite E. reflexivity. }
  destruct (acknowledge_effect_counters r1 (hook i1)) as [At Af].
  cbn zeta in At, Af. change (seen_triggered r1) with (triggeredAnimation (hook i1)) in Af.
  assert (E0 : (triggeredAnimation (hook i1) =? 0) = false) by (apply Z.eqb_neq; lia).
  rewrite E0 in Af. rewrite <- Hi2 in At, Af.
  split.
  { intros rm ref q. unfold useMovingAnimation. cbn [spring reset].
    apply negb_true_iff, Z.eqb_neq. lia. }
  split.
  { intros rm ref q. unfold useMovingAnimation. cbn [spring reset].
    apply negb_false_iff, Z.eqb_eq. lia. }
  split; [lia|]. split; [lia|].
  rewrite Hi2. unfold acknowledge_effect. destruct (truthy _); reflexivity.
Qed.

Lemma trigger_then_rerender_settles_witness :
  let i1 := step (Render false Examples.all_on true Examples.move_up)
                 Examples.mounted_instance in
  let i2 := step (Render false Examples.all_on false (fun e => e)) i1 in
  triggeredAnimation (hook i2) = 1 /\ finishedAnimation (hook i2) = 1
  /\ y (transform (hook i2)) = 80.
Proof.
  intros i1 i2.
  destruct (trigger_then_rerender_settles Examples.mounted_instance 0 Examples.all_on
              Examples.move_up false Examples.all_on (fun e => e))
    as (_ & _ & Ht & Hf & Htr).
  - cbn. lia.
  - reflexivity.
  - reflexivity.
  - reflexivity.
  - fold i1 i2 in Ht, Hf, Htr. split; [exact Ht|]. split; [exact Hf|].
    rewrite Htr. reflexivity.
Defined.


Lemma move_effect_reduced r e s :
  prefersReducedMotion r = true ->
  triggeredAnimation (snd (move_effect r e s)) = triggeredAnimation s
  /\ finishedAnimation (snd (move_effect r e s)) = finishedAnimation s
  /\ transform (snd (move_effect r e s)) = transform s.
Proof.
  intros Hrm. unfold move_effect. rewrite Hrm.
  destruct (previous r); [|repeat split].
  destruct (seen_adjustScrolling r); [|repeat split].
  cbn [scrollContainer set_scrollContainer].
  destruct (getScrollContainer e); repeat split.
Qed.

Lemma reduced_step_keeps ev i :
  reduced_event ev ->
  triggeredAnimation (hook i) = 0 /\ finishedAnimation (hook i) = 0
  /\ transform (hook i) = transform initial ->
  triggeredAnimation (hook (step ev i)) = 0
  /\ finishedAnimation (hook (step ev i)) = 0
  /\ transform (hook (step ev i)) = transform initial.
Proof.
  intros Hev (Ht & Hf & Htr).
  destruct ev as [rm p changed relayout|]; cbn [step].
  - set (r := useMovingAnimation rm (ref_current i) p (hook i)).
    assert (Hrm : prefersReducedMotion r = true) by exact Hev.
    assert (Hack : acknowledge_effect r (hook i) = hook i).
    { unfold acknowledge_effect, truthy.
      change (seen_triggered r) with (triggeredAnimation (hook i)).
      rewrite Ht. reflexivity. }
    rewrite Hack.
    assert (Hs1 : (if deps_changed (ack_deps i) (triggeredAnimation (hook i))
                   then hook i else hook i) = hook i)
      by (destruct (deps_changed _ _); reflexivity).
    rewrite Hs1. cbn [hook].
    destruct (changed || negb (bool_decide (is_Some (ack_deps i)))).
    + destruct (move_effect_reduced r (relayout (element i)) (hook i) Hrm)
        as (Mt & Mf & Mtr).
      rewrite Mt, Mf, Mtr. auto.
    + cbn [snd]. auto.
  - destruct (latest i); cbn [hook]; auto.
Qed.

(** X5: while every render has reduced motion in effect, nothing is
    ever animated: along any such run from the mount both counters stay 0
    and the transform stays zero, so no spring is ever reset. *)
Theorem reduced_runs_never_animate evs e :
  Forall reduced_event evs ->
  let s := hook (run evs (mount e)) in
  triggeredAnimation s = 0 /\ finishedAnimation s = 0
  /\ transform s = transform initial.
Proof.
  intros Hall. cbv zeta.
  assert (G : forall i,
             triggeredAnimation (hook i) = 0 /\ finishedAnimation (hook i) = 0
             /\ transform (hook i) = transform initial ->
             triggeredAnimation (hook (run evs i)) = 0
             /\ finishedAnimation (hook (run evs i)) = 0
             /\ transform (hook (run evs i)) = transform initial).
  { induction Hall as [|ev evs Hev _ IH]; intros i Hi; [exact Hi|].
    change (run (ev :: evs) i) with (run evs (step ev i)).
    apply IH, reduced_step_keeps; assumption. }
  apply G. repeat split.
Qed.

Lemma reduced_runs_never_animate_witness :
  let evs := [ Render true Examples.all_on true (fun e => e);
               AnimationFrame;
               Render false Examples.animation_off true Examples.move_up ] in
  triggeredAnimation
    (hook (run evs (mount (Examples.block_at {| top := 100; left := 50 |})))) = 0.
Proof.
  intros evs.
  apply (reduced_runs_never_animate evs (Examples.block_at {| top := 100; left := 50 |})).
  repeat constructor.
Defined.

End LifeCycle.

(** ** What the user sees *)
Section Viewport.
Import JS Dom MovingAnimation.

(** X6: when the layout shifts the block by its inline overrides (as
    for a relatively positioned block), the second effect leaves the block
    measured exactly at its previous position: the freeze undoes the
    move. *)
Theorem freeze_restores_previous_position r e s prev :
  previous r = Some prev ->
  prefersReducedMotion r = false ->
  let dest := destination_of e in
  let dx := left prev - left dest in
  let dy := top prev - top dest in
  offsets e (if dx =? 0 then None else Some (px dx))
            (if dy =? 0 then None else Some (px dy))
  = {| top := top dest + dy; left := left dest + dx |} ->
  getAbsolutePosition (fst (move_effect r e s)) = prev.
Proof.
  intros Hprev Hrm dest dx dy Hlayout.
  destruct (move_effect_animated r e s prev Hprev Hrm) as (Hl & Ht & _).
  fold dest dx dy in Hl, Ht.
  assert (Hoff : offsets (fst (move_effect r e s)) = offsets e).
  { unfold move_effect. rewrite Hprev, Hrm. reflexivity. }
  unfold getAbsolutePosition, offsetTop, offsetLeft.
  rewrite Hoff, Hl, Ht, Hlayout. cbn [top left].
  destruct prev as [pt pl]. cbn [top left] in *. f_equal; lia.
Qed.

Lemma freeze_restores_previous_position_witness :
  let r := useMovingAnimation false
             (Some (Layout.relative_block {| top := 100; left := 50 |}))
             Examples.all_on initial in
  let e := Layout.relative_block {| top := 20; left := 50 |} in
  getAbsolutePosition e = {| top := 20; left := 50 |}
  /\ getAbsolutePosition (fst (move_effect r e initial)) = {| top := 100; left := 50 |}.
Proof.
  intros r e. split; [reflexivity|].
  apply (freeze_restores_previous_position r e initial {| top := 100; left := 50 |});
    reflexivity.
Defined.





End Viewport.

(** ** The popover's level controls *)
Section LevelControls.
Import HeadingLevel.

Variable ClientId : Type.
Variable useIsHeadingLevelValid : ClientId -> Z -> bool.
Variable DOWN : Z.

(** X10: the popover lists one control per heading level, 1 to 6 in
    order, whatever the selected level; clicking the control of level [k]
    calls [onChange] once with [k] and does nothing else (it does not toggle
    the popover), and a mouse-down on any control prevents the default
    action and focuses the control without changing the level. *)
Theorem level_controls_report_their_level clientId selectedLevel :
  let cs := controls (renderContent
              (HeadingLevelDropdown ClientId useIsHeadingLevelValid DOWN
                 clientId selectedLevel)) in
  map control_onClick cs = map (fun k => [onChange k]) [1; 2; 3; 4; 5; 6]
  /\ map title cs
     = ["Heading 1"; "Heading 2"; "Heading 3"; "Heading 4"; "Heading 5"; "Heading 6"]%string
  /\ Forall (fun c => onMouseDown c = [preventDefault; focus_currentTarget]
                      /\ ~ In onToggle (control_onClick c)) cs.
Proof.
  cbn. split; [reflexivity|]. split; [reflexivity|].
  repeat constructor; intros [H | []]; discriminate H.
Qed.

(** X11: at most one control is marked active: exactly one when the
    selected level is 1 to 6 (the control of that level), none for any
    other value; and each control's icon is pressed exactly when the
    control is active. *)
Theorem active_control_is_selected_level clientId selectedLevel :
  let cs := controls (renderContent
              (HeadingLevelDropdown ClientId useIsHeadingLevelValid DOWN
                 clientId selectedLevel)) in
  length (List.filter isActive cs)
  = (if (1 <=? selectedLevel) && (selectedLevel <=? 6) then 1%nat else 0%nat)
  /\ (forall c, In c cs ->
        (isActive c = true <-> control_onClick c = [onChange selectedLevel])
        /\ exists k, control_icon c = HeadingLevelIcon k (Some (isActive c))).
Proof.
  cbn -[Z.eqb Z.leb]. split.
  - repeat match goal with
           | |- context [(?a =? selectedLevel)] =>
             destruct (Z.eqb_spec a selectedLevel)
           end; try lia;
      destruct (Z.leb_spec 1 selectedLevel), (Z.leb_spec selectedLevel 6);
      cbn; try reflexivity; lia.
  - intros c Hc.
    repeat (destruct Hc as [<- | Hc]); try contradiction; cbn -[Z.eqb];
      (split; [|eexists; reflexivity]);
      (split; [intros E; apply Z.eqb_eq in E; subst; reflexivity
              | intros [= <-]; reflexivity]).
Qed.

(** X12: the toggle and the popover agree: the toggle shows the
    invalidity indicator exactly when the popover's [HeadingLevelChecker]
    is handed [levelIsInvalid = true], for the same selected level, and the
    first element of the toggle's icon is always the icon of the selected
    level. *)
Theorem indicator_agrees_with_checker clientId selectedLevel isOpen :
  let d := HeadingLevelDropdown ClientId useIsHeadingLevelValid DOWN
             clientId selectedLevel in
  checker (renderContent d)
  = HeadingLevelChecker (shows_invalid_indicator (renderToggle d isOpen)) selectedLevel
  /\ hd_error (icon (renderToggle d isOpen)) = Some (HeadingLevelIcon selectedLevel None)
  /\ (length (icon (renderToggle d isOpen)) <= 2)%nat.
Proof.
  cbv zeta. rewrite indicator_follows_hook_result. cbn.
  destruct (useIsHeadingLevelValid clientId selectedLevel); cbn; repeat split; lia.
Qed.

End LevelControls.
